(** * advisory-lock: shallow embedding of the handle layer (lib.rs) and of
    the two platform backends (unix.rs, windows.rs).

    Native calls ([open], [flock], [LockFileEx], [UnlockFileEx], the
    [log::error!] side channel) are the effects of the program.  They are
    modelled by a small reader/writer monad: the operating system is an
    oracle record [Os] answering each native call, and every call the
    program issues is appended to a trace, so that theorems can speak both
    about the results and about which native calls were made. *)

From Stdlib Require Import ZArith List String Bool.
Import ListNotations.
Open Scope Z_scope.

(** ** Data model (lib.rs) *)

(** [io::Error] is represented by its raw OS error code. *)
Definition io_error := Z.

(** [pub enum FileLockError { AlreadyLocked, Io(io::Error) }] *)
Inductive FileLockError :=
| AlreadyLocked
| Io (err : io_error).

(** [pub enum FileLockMode { Exclusive, Shared }] *)
Inductive FileLockMode := Exclusive | Shared.

Definition FileLockMode_eqb (a b : FileLockMode) : bool :=
  match a, b with
  | Exclusive, Exclusive | Shared, Shared => true
  | _, _ => false
  end.

(** Rust's [Result]. *)
Inductive result (A E : Type) :=
| Ok (a : A)
| Err (e : E).
Arguments Ok {A E} a.
Arguments Err {A E} e.

(** A [std::fs::File] is known to the backends only through its raw
    descriptor ([RawFd] on POSIX, [RawHandle] on Windows). *)
Record File := mkFile { raw : Z }.

(** [pub struct AdvisoryFileLock { file: File, file_lock_mode: FileLockMode }] *)
Record AdvisoryFileLock := mkAdvisoryFileLock {
  file : File;
  file_lock_mode : FileLockMode
}.

(** The flags set on [std::fs::OpenOptions] before [open]. *)
Record OpenOptions := mkOpenOptions {
  oo_read : bool;
  oo_write : bool;
  oo_create : bool
}.

(** [OpenOptions::new()]: every flag off. *)
Definition OpenOptions_new : OpenOptions := mkOpenOptions false false false.
Definition oo_set_read (b : bool) (o : OpenOptions) :=
  mkOpenOptions b (oo_write o) (oo_create o).
Definition oo_set_write (b : bool) (o : OpenOptions) :=
  mkOpenOptions (oo_read o) b (oo_create o).
Definition oo_set_create (b : bool) (o : OpenOptions) :=
  mkOpenOptions (oo_read o) (oo_write o) b.

(** ** Native constants *)

Definition u32_MAX : Z := 2 ^ 32 - 1.
Definition usize_MAX : Z := 2 ^ 64 - 1.

(** libc (Linux values). *)
Definition LOCK_SH : Z := 1.
Definition LOCK_EX : Z := 2.
Definition LOCK_NB : Z := 4.
Definition LOCK_UN : Z := 8.
Definition EWOULDBLOCK : Z := 11.

(** winapi. *)
Definition TRUE : Z := 1.
Definition NULL : Z := 0.
Definition LOCKFILE_FAIL_IMMEDIATELY : Z := 1.
Definition LOCKFILE_EXCLUSIVE_LOCK : Z := 2.
Definition ERROR_NOT_LOCKED : Z := 158.
Definition ERROR_LOCKED : Z := 212.

(** [OVERLAPPED], with the [Offset]/[OffsetHigh] pair of its union. *)
Record OVERLAPPED := mkOVERLAPPED {
  Internal : Z;
  InternalHigh : Z;
  Offset : Z;
  OffsetHigh : Z;
  hEvent : Z
}.

(** ** Native calls and the operating system *)

Inductive native_call :=
| NOpen (path : string) (opts : OpenOptions)
| NFlock (fd : Z) (operation : Z)
| NLockFileEx (h : Z) (dwFlags dwReserved nNumberOfBytesToLockLow
                        nNumberOfBytesToLockHigh : Z) (ov : OVERLAPPED)
| NUnlockFileEx (h : Z) (dwReserved nNumberOfBytesToUnlockLow
                          nNumberOfBytesToUnlockHigh : Z) (ov : OVERLAPPED)
| NLogError (err : FileLockError).

(** The operating system answers each native call.  Its answer may depend
    on every native call issued before (the history), which is how the
    kernel's lock table is observed.  [flock] returns its integer result
    together with [errno]; [LockFileEx] and [UnlockFileEx] return their
    [BOOL] together with what [GetLastError()] reports next. *)
Record Os := mkOs {
  os_open : list native_call -> string -> OpenOptions -> result Z io_error;
  os_flock : list native_call -> Z -> Z -> Z * Z;
  os_LockFileEx : list native_call -> Z -> Z -> Z -> Z -> Z -> OVERLAPPED -> Z * Z;
  os_UnlockFileEx : list native_call -> Z -> Z -> Z -> Z -> OVERLAPPED -> Z * Z
}.

(** A computation reads the OS and the history of earlier calls, and
    returns the calls it issued itself together with its value. *)
Definition M (A : Type) := Os -> list native_call -> list native_call * A.

Definition ret {A} (a : A) : M A := fun _ _ => ([], a).
Definition bind {A B} (m : M A) (k : A -> M B) : M B :=
  fun os hist =>
    let (t1, a) := m os hist in
    let (t2, b) := k a os (hist ++ t1) in (t1 ++ t2, b).

Notation "'let*' x := m 'in' k" := (bind m (fun x => k))
  (at level 200, x name, m at level 100, right associativity).

(** Running a computation from an empty history. *)
Definition run {A} (m : M A) (os : Os) : A := snd (m os []).
Definition trace {A} (m : M A) (os : Os) : list native_call := fst (m os []).

(** The primitive effects. *)
Definition open (path : string) (o : OpenOptions) : M (result Z io_error) :=
  fun os h => ([NOpen path o], os_open os h path o).
Definition flock (fd op : Z) : M (Z * Z) :=
  fun os h => ([NFlock fd op], os_flock os h fd op).
Definition LockFileEx (hd fl r lo hi : Z) (ov : OVERLAPPED) : M (Z * Z) :=
  fun os h => ([NLockFileEx hd fl r lo hi ov], os_LockFileEx os h hd fl r lo hi ov).
Definition UnlockFileEx (hd r lo hi : Z) (ov : OVERLAPPED) : M (Z * Z) :=
  fun os h => ([NUnlockFileEx hd r lo hi ov], os_UnlockFileEx os h hd r lo hi ov).
Definition log_error (err : FileLockError) : M unit :=
  fun _ _ => ([NLogError err], tt).

(** ** POSIX backend (unix.rs) *)
Module Unix.

(** The [flags] computed at the start of [lock_file]. *)
Definition lock_flags (file_lock_mode : FileLockMode) (immediate : bool) : Z :=
  let flags := match file_lock_mode with
               | Shared => LOCK_SH
               | Exclusive => LOCK_EX
               end in
  if immediate then Z.lor flags LOCK_NB else flags.

(** [fn lock_file(raw_fd, file_lock_mode, immediate)] *)
Definition lock_file (raw_fd : Z) (file_lock_mode : FileLockMode)
    (immediate : bool) : M (result unit FileLockError) :=
  let flags := lock_flags file_lock_mode immediate in
  let* r := flock raw_fd flags in
  let (result, last_os_error) := r in
  if negb (result =? 0) then
    ret (Err (if last_os_error =? EWOULDBLOCK
              then AlreadyLocked
              else Io last_os_error))
  else ret (Ok tt).

(** [fn unlock_file(raw_fd)] *)
Definition unlock_file (raw_fd : Z) : M (result unit FileLockError) :=
  let* r := flock raw_fd LOCK_UN in
  let (result, last_os_error) := r in
  if result =? 0 then ret (Ok tt) else ret (Err (Io last_os_error)).

(** unix.rs's [impl AdvisoryFileLock for RawFd]: [lock], [try_lock],
    [unlock] forward to [lock_file] and [unlock_file].  (This trait-shaped
    API does not fit lib.rs's struct; see the handle layer below.) *)
Definition lock (fd : Z) (m : FileLockMode) := lock_file fd m false.
Definition try_lock (fd : Z) (m : FileLockMode) := lock_file fd m true.
Definition unlock (fd : Z) := unlock_file fd.

End Unix.

(** ** Windows backend (windows.rs) *)
Module Windows.

(** [fn create_overlapped() -> OVERLAPPED] *)
Definition create_overlapped : OVERLAPPED :=
  {| Internal := usize_MAX; InternalHigh := usize_MAX;
     Offset := u32_MAX; OffsetHigh := u32_MAX; hEvent := NULL |}.

(** The [flags] computed in [lock_file]. *)
Definition lock_flags (file_lock_mode : FileLockMode) (immediate : bool) : Z :=
  let flags := if FileLockMode_eqb file_lock_mode Exclusive
               then Z.lor 0 LOCKFILE_EXCLUSIVE_LOCK else 0 in
  if immediate then Z.lor flags LOCKFILE_FAIL_IMMEDIATELY else flags.

(** [fn lock_file(raw_handle, file_lock_mode, immediate)] *)
Definition lock_file (raw_handle : Z) (file_lock_mode : FileLockMode)
    (immediate : bool) : M (result unit FileLockError) :=
  let overlapped := create_overlapped in
  let flags := lock_flags file_lock_mode immediate in
  let* r := LockFileEx raw_handle flags 0 1 0 overlapped in
  let (result, last_error) := r in
  if negb (result =? TRUE) then
    ret (Err (if last_error =? ERROR_LOCKED
              then AlreadyLocked
              else Io last_error))
  else ret (Ok tt).

(** [fn unlock_file(raw_handle)] *)
Definition unlock_file (raw_handle : Z) : M (result unit FileLockError) :=
  let overlapped := create_overlapped in
  let* r := UnlockFileEx raw_handle 0 1 0 overlapped in
  let (result, raw_error) := r in
  if result =? TRUE then ret (Ok tt)
  else if raw_error =? ERROR_NOT_LOCKED then ret (Ok tt)
  else ret (Err (Io raw_error)).

(** The backend calls made by [unlock_impl]. *)
Definition unlock (h : Z) := unlock_file h.

End Windows.

(** ** The handle layer (lib.rs) *)

(** lib.rs's [lock], [try_lock] and [unlock] call [self.lock_impl()],
    [self.try_lock_impl()] and [self.unlock_impl()].  Only windows.rs
    defines these methods; unix.rs still implements an older trait-shaped
    API ([impl AdvisoryFileLock for File] and [for RawFd]) that does not fit
    lib.rs's struct, so a Unix build has no handle layer.  The handle layer
    is therefore modelled with the Windows backend; the POSIX backend is
    modelled at the level of its [lock_file] and [unlock_file].

    [lock_impl], [try_lock_impl], [unlock_impl] (windows.rs). *)
Definition lock_impl (self : AdvisoryFileLock) :=
  Windows.lock_file (raw (file self)) (file_lock_mode self) false.

Definition try_lock_impl (self : AdvisoryFileLock) :=
  Windows.lock_file (raw (file self)) (file_lock_mode self) true.

Definition unlock_impl (self : AdvisoryFileLock) :=
  Windows.unlock_file (raw (file self)).

(** [AdvisoryFileLock::new(path, file_lock_mode)] *)
Definition new (path : string) (file_lock_mode : FileLockMode)
    : M (result AdvisoryFileLock FileLockError) :=
  let is_exclusive := FileLockMode_eqb file_lock_mode Exclusive in
  let opts := oo_set_write is_exclusive
                (oo_set_create is_exclusive
                  (oo_set_read true OpenOptions_new)) in
  let* r := open path opts in
  match r with
  | Err e => ret (Err (Io e))
  | Ok fd => ret (Ok {| file := mkFile fd; file_lock_mode := file_lock_mode |})
  end.

(** [is_shared] and [is_exclusive]. *)
Definition is_shared (self : AdvisoryFileLock) : bool :=
  FileLockMode_eqb (file_lock_mode self) Shared.
Definition is_exclusive (self : AdvisoryFileLock) : bool :=
  FileLockMode_eqb (file_lock_mode self) Exclusive.

(** [lock], [try_lock] and [unlock] take [&mut self]: the handle is
    threaded through and returned with the operation's result. *)
Definition lock (self : AdvisoryFileLock)
    : M (AdvisoryFileLock * result unit FileLockError) :=
  let* r := lock_impl self in ret (self, r).
Definition try_lock (self : AdvisoryFileLock)
    : M (AdvisoryFileLock * result unit FileLockError) :=
  let* r := try_lock_impl self in ret (self, r).
Definition unlock (self : AdvisoryFileLock)
    : M (AdvisoryFileLock * result unit FileLockError) :=
  let* r := unlock_impl self in ret (self, r).

(** [impl Drop for AdvisoryFileLock]: an unlock whose error goes to
    [log::error!]; [drop] itself returns [()]. *)
Definition drop (self : AdvisoryFileLock) : M unit :=
  let* r := unlock self in
  match snd r with
  | Err err => log_error err
  | Ok _ => ret tt
  end.

(** A client's sequence of calls on one handle. *)
Inductive op := OpLock | OpTryLock | OpUnlock.

Definition step (o : op) :=
  match o with
  | OpLock => lock
  | OpTryLock => try_lock
  | OpUnlock => unlock
  end.

Fixpoint run_ops (self : AdvisoryFileLock) (ops : list op)
    : M (AdvisoryFileLock * list (result unit FileLockError)) :=
  match ops with
  | [] => ret (self, [])
  | o :: rest =>
      let* r := step o self in
      let* r' := run_ops (fst r) rest in
      ret (fst r', snd r :: snd r')
  end.

(** [impl fmt::Display for FileLockError]; [io::Error]'s own [Display]
    is the parameter [io_display]. *)
Definition fmt (io_display : io_error -> string) (e : FileLockError) : string :=
  match e with
  | AlreadyLocked => "the file is already locked"
  | Io err => "I/O error: " ++ io_display err
  end.

(** ** Observations on native calls *)

(** The byte range (offset, length) named by a range-lock call: the 64-bit
    offset is [OffsetHigh:Offset], the 64-bit length is [high:low]. *)
Definition lock_range (c : native_call) : option (Z * Z) :=
  match c with
  | NLockFileEx _ _ _ lo hi ov
  | NUnlockFileEx _ _ lo hi ov =>
      Some (OffsetHigh ov * 2 ^ 32 + Offset ov, hi * 2 ^ 32 + lo)
  | _ => None
  end.

(** Calls that take or release a native lock. *)
Definition is_lock_call (c : native_call) : bool :=
  match c with
  | NFlock _ _ | NLockFileEx _ _ _ _ _ _ | NUnlockFileEx _ _ _ _ _ => true
  | _ => false
  end.

(** The native call issued by [lock_impl] ([immediate = false]) and
    [try_lock_impl] ([immediate = true]). *)
Definition lock_call (self : AdvisoryFileLock) (immediate : bool)
    : native_call :=
  NLockFileEx (raw (file self))
    (Windows.lock_flags (file_lock_mode self) immediate)
    0 1 0 Windows.create_overlapped.

(** The descriptor a native call acts on. *)
Definition call_fd (c : native_call) : option Z :=
  match c with
  | NFlock fd _ | NLockFileEx fd _ _ _ _ _ | NUnlockFileEx fd _ _ _ _ => Some fd
  | _ => None
  end.

(** The native call issued by [unlock_impl]. *)
Definition unlock_call (self : AdvisoryFileLock) : native_call :=
  NUnlockFileEx (raw (file self)) 0 1 0 Windows.create_overlapped.

(** The documented contract of the native primitives for blocking
    requests: [flock] without [LOCK_NB] never fails with [EWOULDBLOCK], and
    [LockFileEx] without [LOCKFILE_FAIL_IMMEDIATELY] never fails with
    [ERROR_LOCKED]; a blocking request waits for the lock instead. *)
Definition flock_blocking_contract (os : Os) : Prop :=
  forall hist fd fl,
    Z.land fl LOCK_NB = 0 ->
    fst (os_flock os hist fd fl) <> 0 ->
    snd (os_flock os hist fd fl) <> EWOULDBLOCK.

Definition LockFileEx_blocking_contract (os : Os) : Prop :=
  forall hist hd fl r lo hi ov,
    Z.land fl LOCKFILE_FAIL_IMMEDIATELY = 0 ->
    fst (os_LockFileEx os hist hd fl r lo hi ov) <> TRUE ->
    snd (os_LockFileEx os hist hd fl r lo hi ov) <> ERROR_LOCKED.

Definition blocking_contract (os : Os) : Prop :=
  flock_blocking_contract os /\ LockFileEx_blocking_contract os.

(** ** Concrete operating systems *)

(** Every call succeeds; [open] returns descriptor 3. *)
Definition os_ok : Os :=
  {| os_open := fun _ _ _ => Ok 3;
     os_flock := fun _ _ _ => (0, 0);
     os_LockFileEx := fun _ _ _ _ _ _ _ => (TRUE, 0);
     os_UnlockFileEx := fun _ _ _ _ _ _ => (TRUE, 0) |}.

(** Every call fails with the error code [code]. *)
Definition os_fail (code : Z) : Os :=
  {| os_open := fun _ _ _ => Err code;
     os_flock := fun _ _ _ => (-1, code);
     os_LockFileEx := fun _ _ _ _ _ _ _ => (0, code);
     os_UnlockFileEx := fun _ _ _ _ _ _ => (0, code) |}.

(** A kernel lock table for one descriptor, on POSIX: a non-blocking
    [flock] fails with [EWOULDBLOCK] when descriptor 4 already holds a lock
    that has not been released since; every other call succeeds. *)
Fixpoint fd4_locked (hist : list native_call) : bool :=
  match hist with
  | [] => false
  | c :: rest =>
      match c with
      | NFlock 4 op => negb (op =? LOCK_UN)
      | _ => fd4_locked rest
      end
  end.

Definition os_contended : Os :=
  {| os_open := fun _ _ _ => Ok 5;
     os_flock := fun hist fd fl =>
       if (fd =? 5) && negb (Z.land fl LOCK_NB =? 0) && fd4_locked (rev hist)
       then (-1, EWOULDBLOCK) else (0, 0);
     os_LockFileEx := fun _ _ _ _ _ _ _ => (TRUE, 0);
     os_UnlockFileEx := fun _ _ _ _ _ _ => (TRUE, 0) |}.

(** A model of Linux [flock(2)] for descriptors that are all open on one
    file, replayed from the history of calls.  The kernel keeps one lock per
    descriptor; [LOCK_UN] drops it; a [LOCK_SH] or [LOCK_EX] request is
    granted (converting any lock the descriptor already holds) unless
    another descriptor holds a conflicting lock, where exclusive conflicts
    with everything.  A refused request fails with [EWOULDBLOCK] under
    [LOCK_NB]; a blocking one waits, and in this sequential model the wait
    ends by a signal, [EINTR].  [open] returns descriptors 3, 4, 5, ... *)
Definition EINTR : Z := 4.

Definition flock_step (st : list (Z * FileLockMode)) (fd op : Z)
    : list (Z * FileLockMode) * (Z * Z) :=
  let others := filter (fun e => negb (fst e =? fd)) st in
  if Z.testbit op 3 then (others, (0, 0))
  else
    let mode := if Z.testbit op 1 then Exclusive else Shared in
    let conflict :=
      existsb (fun e => FileLockMode_eqb mode Exclusive
                        || FileLockMode_eqb (snd e) Exclusive) others in
    if conflict
    then (st, (-1, if Z.testbit op 2 then EWOULDBLOCK else EINTR))
    else ((fd, mode) :: others, (0, 0)).

Fixpoint flock_replay (st : list (Z * FileLockMode)) (hist : list native_call)
    : list (Z * FileLockMode) :=
  match hist with
  | [] => st
  | NFlock fd op :: rest => flock_replay (fst (flock_step st fd op)) rest
  | _ :: rest => flock_replay st rest
  end.

Fixpoint count_opens (hist : list native_call) : Z :=
  match hist with
  | [] => 0
  | NOpen _ _ :: rest => 1 + count_opens rest
  | _ :: rest => count_opens rest
  end.

Definition os_flock_file : Os :=
  {| os_open := fun hist _ _ => Ok (3 + count_opens hist);
     os_flock := fun hist fd op => snd (flock_step (flock_replay [] hist) fd op);
     os_LockFileEx := fun _ _ _ _ _ _ _ => (TRUE, 0);
     os_UnlockFileEx := fun _ _ _ _ _ _ => (TRUE, 0) |}.

(** The shape of lib.rs's tests at the level of unix.rs's [lock_file]:
    descriptor [fd1] takes the blocking lock, then descriptor [fd2] tries
    the non-blocking one; in the second scenario [fd1] unlocks in between. *)
Definition lock_then_try_lock (fd1 fd2 : Z) (m1 m2 : FileLockMode)
    : M (list (result unit FileLockError)) :=
  let* r1 := Unix.lock_file fd1 m1 false in
  let* r2 := Unix.lock_file fd2 m2 true in
  ret [r1; r2].

Definition lock_unlock_then_try_lock (fd1 fd2 : Z) (m1 m2 : FileLockMode)
    : M (list (result unit FileLockError)) :=
  let* r1 := Unix.lock_file fd1 m1 false in
  let* r2 := Unix.unlock_file fd1 in
  let* r3 := Unix.lock_file fd2 m2 true in
  ret [r1; r2; r3].

Definition h4 : AdvisoryFileLock := {| file := mkFile 4; file_lock_mode := Exclusive |}.
Definition h5 : AdvisoryFileLock := {| file := mkFile 5; file_lock_mode := Shared |}.

(** Two handles on one file: the second [try_lock] sees the first lock. *)
Example contended_try_lock :
  run (let* a := Unix.lock_file 4 Exclusive false in
       Unix.lock_file 5 Shared true) os_contended
  = Err AlreadyLocked.
Proof. reflexivity. Qed.

Example released_try_lock :
  run (let* a := Unix.lock_file 4 Exclusive false in
       let* b := Unix.unlock_file 4 in
       Unix.lock_file 5 Shared true) os_contended
  = Ok tt.
Proof. reflexivity. Qed.

Example new_exclusive_ok :
  run (new "foo.txt" Exclusive) os_ok
  = Ok {| file := mkFile 3; file_lock_mode := Exclusive |}.
Proof. reflexivity. Qed.

Example drop_logs :
  trace (drop h4) (os_fail 5)
  = [NUnlockFileEx 4 0 1 0 Windows.create_overlapped; NLogError (Io 5)].
Proof. reflexivity. Qed.

Example unlock_not_locked :
  run (unlock h4) (os_fail ERROR_NOT_LOCKED) = (h4, Ok tt).
Proof. reflexivity. Qed.

(** ** Theorems *)

(** Unfolding lemmas: each backend function issues one native call and
    maps its answer. *)
Lemma Unix_lock_file_eq os hist fd mode immediate :
  Unix.lock_file fd mode immediate os hist =
  ([NFlock fd (Unix.lock_flags mode immediate)],
   let (result, last_os_error) :=
     os_flock os hist fd (Unix.lock_flags mode immediate) in
   if negb (result =? 0)
   then Err (if last_os_error =? EWOULDBLOCK then AlreadyLocked
             else Io last_os_error)
   else Ok tt).
Proof.
  unfold Unix.lock_file, bind, flock, ret; cbn.
  destruct (os_flock _ _ _ _) as [r e]; destruct (negb (r =? 0)); reflexivity.
Qed.

Lemma Unix_unlock_file_eq os hist fd :
  Unix.unlock_file fd os hist =
  ([NFlock fd LOCK_UN],
   let (result, last_os_error) := os_flock os hist fd LOCK_UN in
   if result =? 0 then Ok tt else Err (Io last_os_error)).
Proof.
  unfold Unix.unlock_file, bind, flock, ret; cbn.
  destruct (os_flock _ _ _ _) as [r e]; destruct (r =? 0); reflexivity.
Qed.

Lemma Windows_lock_file_eq os hist hd mode immediate :
  Windows.lock_file hd mode immediate os hist =
  ([NLockFileEx hd (Windows.lock_flags mode immediate) 0 1 0
                Windows.create_overlapped],
   let (result, last_error) :=
     os_LockFileEx os hist hd (Windows.lock_flags mode immediate) 0 1 0
                   Windows.create_overlapped in
   if negb (result =? TRUE)
   then Err (if last_error =? ERROR_LOCKED then AlreadyLocked
             else Io last_error)
   else Ok tt).
Proof.
  unfold Windows.lock_file, bind, LockFileEx, ret; cbn.
  destruct (os_LockFileEx _ _ _ _ _ _ _ _) as [r e];
    destruct (negb (r =? TRUE)); reflexivity.
Qed.

Lemma Windows_unlock_file_eq os hist hd :
  Windows.unlock_file hd os hist =
  ([NUnlockFileEx hd 0 1 0 Windows.create_overlapped],
   let (result, raw_error) :=
     os_UnlockFileEx os hist hd 0 1 0 Windows.create_overlapped in
   if result =? TRUE then Ok tt
   else if raw_error =? ERROR_NOT_LOCKED then Ok tt
   else Err (Io raw_error)).
Proof.
  unfold Windows.unlock_file, bind, UnlockFileEx, ret; cbn.
  destruct (os_UnlockFileEx _ _ _ _ _ _ _) as [r e];
    destruct (r =? TRUE), (e =? ERROR_NOT_LOCKED); reflexivity.
Qed.

(** The mode passed to [lock_file] reaches the flags only through its
    exclusive/shared bit; the non-blocking bit is set exactly for the
    immediate variant. *)
Lemma Unix_lock_flags_nb mode immediate :
  Z.land (Unix.lock_flags mode immediate) LOCK_NB = 0 <-> immediate = false.
Proof. destruct mode, immediate; cbv; split; congruence. Qed.

Lemma Windows_lock_flags_nb mode immediate :
  Z.land (Windows.lock_flags mode immediate) LOCKFILE_FAIL_IMMEDIATELY = 0
  <-> immediate = false.
Proof. destruct mode, immediate; cbv; split; congruence. Qed.

Ltac decide_codes :=
  repeat match goal with
  | |- context [?a =? ?b] => destruct (Z.eqb_spec a b)
  end; cbn; intuition congruence.

(** C1 (counterexample): the Windows lock call does not name the range
    offset 0, length 2^64-1; on a blocking exclusive lock it names the one
    byte at offset 2^64-1. *)
Lemma C1_windows_range_counterexample :
  map lock_range (trace (Windows.lock_file 3 Exclusive false) os_ok)
    = [Some (usize_MAX, 1)] /\
  map lock_range (trace (Windows.lock_file 3 Exclusive false) os_ok)
    <> [Some (0, usize_MAX)].
Proof. split; [reflexivity | vm_compute; congruence]. Qed.

(** C1 (amended): for every handle, mode and blocking flag, the Windows
    backend's lock issues exactly one [LockFileEx] whose [OVERLAPPED] is
    [create_overlapped] and whose range is the single byte at offset 2^64-1
    (Offset = OffsetHigh = u32::MAX, length low 1, high 0); its unlock
    issues one [UnlockFileEx] over the same byte. *)
Theorem C1_windows_lock_range (os : Os) (h : Z) (mode : FileLockMode)
    (immediate : bool) :
  trace (Windows.lock_file h mode immediate) os
    = [NLockFileEx h (Windows.lock_flags mode immediate) 0 1 0
                   Windows.create_overlapped] /\
  map lock_range (trace (Windows.lock_file h mode immediate) os)
    = [Some (usize_MAX, 1)] /\
  map lock_range (trace (Windows.unlock_file h) os) = [Some (usize_MAX, 1)].
Proof.
  unfold trace, Windows.lock_file, Windows.unlock_file, bind, LockFileEx,
    UnlockFileEx, ret; cbn.
  destruct (os_LockFileEx os [] h (Windows.lock_flags mode immediate) 0 1 0
              Windows.create_overlapped) as [r e].
  destruct (os_UnlockFileEx os [] h 0 1 0 Windows.create_overlapped) as [r' e'].
  destruct (negb (r =? TRUE)), (r' =? TRUE), (e' =? ERROR_NOT_LOCKED);
    cbn; repeat split; reflexivity.
Qed.

(** C2: under [flock]'s documented contract (a request without [LOCK_NB]
    never fails with [EWOULDBLOCK]), for every descriptor, mode, blocking
    flag and history, the POSIX [lock_file] with [flock] answering
    [(result, errno)] yields [Ok] exactly when [result = 0],
    [AlreadyLocked] exactly when it fails, the non-blocking variant was
    requested and [errno = EWOULDBLOCK], and [IOError errno] exactly for
    every other failure. *)
Theorem C2_posix_lock_mapping (os : Os) (fd : Z) (mode : FileLockMode)
    (immediate : bool) (hist : list native_call)
    (Hc : flock_blocking_contract os) :
  let '(r, e) := os_flock os hist fd (Unix.lock_flags mode immediate) in
  (snd (Unix.lock_file fd mode immediate os hist) = Ok tt <-> r = 0) /\
  (snd (Unix.lock_file fd mode immediate os hist) = Err AlreadyLocked
     <-> r <> 0 /\ immediate = true /\ e = EWOULDBLOCK) /\
  (snd (Unix.lock_file fd mode immediate os hist) = Err (Io e)
     <-> r <> 0 /\ ~ (immediate = true /\ e = EWOULDBLOCK)).
Proof.
  rewrite Unix_lock_file_eq; cbn [snd].
  pose proof (Hc hist fd (Unix.lock_flags mode immediate)) as Hf.
  pose proof (Unix_lock_flags_nb mode immediate) as Hnb.
  destruct (os_flock os hist fd (Unix.lock_flags mode immediate)) as [r e].
  cbn [fst snd] in Hf.
  destruct immediate.
  - decide_codes.
  - specialize (Hf (proj2 Hnb eq_refl)); decide_codes.
Qed.

(** Witness for C2: a lock table where descriptor 4 holds an exclusive
    lock; descriptor 5's non-blocking shared request is refused. *)
Lemma C2_posix_lock_mapping_witness :
  flock_blocking_contract os_contended /\
  snd (Unix.lock_file 5 Shared true os_contended [NFlock 4 LOCK_EX])
    = Err AlreadyLocked /\
  (let '(r, e) := os_flock os_contended [NFlock 4 LOCK_EX] 5
                    (Unix.lock_flags Shared true) in
   (snd (Unix.lock_file 5 Shared true os_contended [NFlock 4 LOCK_EX]) = Ok tt
      <-> r = 0) /\
   (snd (Unix.lock_file 5 Shared true os_contended [NFlock 4 LOCK_EX])
      = Err AlreadyLocked <-> r <> 0 /\ true = true /\ e = EWOULDBLOCK) /\
   (snd (Unix.lock_file 5 Shared true os_contended [NFlock 4 LOCK_EX])
      = Err (Io e) <-> r <> 0 /\ ~ (true = true /\ e = EWOULDBLOCK))).
Proof.
  assert (Hc : flock_blocking_contract os_contended).
  { intros hist fd fl H; cbn [os_flock os_contended]; rewrite H; cbn.
    rewrite Bool.andb_false_r; cbn; intros Hne; exfalso; apply Hne; reflexivity. }
  split; [exact Hc |].
  split; [reflexivity |].
  exact (C2_posix_lock_mapping os_contended 5 Shared true [NFlock 4 LOCK_EX] Hc).
Defined.

(** Blocking requests under the contract, one backend at a time. *)
Lemma Unix_blocking_not_already_locked os fd mode hist :
  flock_blocking_contract os ->
  snd (Unix.lock_file fd mode false os hist) <> Err AlreadyLocked /\
  (snd (Unix.lock_file fd mode false os hist) = Ok tt \/
   exists e, snd (Unix.lock_file fd mode false os hist) = Err (Io e)).
Proof.
  intros Hu; rewrite Unix_lock_file_eq; cbn [snd].
  specialize (Hu hist fd (Unix.lock_flags mode false)
                (proj2 (Unix_lock_flags_nb _ _) eq_refl)).
  destruct (os_flock os hist fd (Unix.lock_flags mode false)) as [r e];
    cbn in Hu.
  destruct (Z.eqb_spec r 0); cbn.
  - split; [discriminate | left; reflexivity].
  - destruct (Z.eqb_spec e EWOULDBLOCK); [exfalso; now apply Hu |].
    split; [discriminate | right; eauto].
Qed.

Lemma Windows_blocking_not_already_locked os hd mode hist :
  LockFileEx_blocking_contract os ->
  snd (Windows.lock_file hd mode false os hist) <> Err AlreadyLocked /\
  (snd (Windows.lock_file hd mode false os hist) = Ok tt \/
   exists e, snd (Windows.lock_file hd mode false os hist) = Err (Io e)).
Proof.
  intros Hw; rewrite Windows_lock_file_eq; cbn [snd].
  specialize (Hw hist hd (Windows.lock_flags mode false) 0 1 0
                Windows.create_overlapped
                (proj2 (Windows_lock_flags_nb _ _) eq_refl)).
  destruct (os_LockFileEx os hist hd (Windows.lock_flags mode false) 0 1 0
              Windows.create_overlapped) as [r e]; cbn in Hw.
  destruct (Z.eqb_spec r TRUE); cbn.
  - split; [discriminate | left; reflexivity].
  - destruct (Z.eqb_spec e ERROR_LOCKED); [exfalso; now apply Hw |].
    split; [discriminate | right; eauto].
Qed.

(** C3: under the documented blocking contract of the native primitives,
    for every handle and every history of earlier calls, the handle's
    blocking [lock] (Windows build) never returns [AlreadyLocked]: it
    returns [Ok] or [IOError]; the same holds for the POSIX backend's
    blocking request [lock_file(fd, mode, false)], for every descriptor
    and mode. *)
Theorem C3_lock_never_already_locked (os : Os) (self : AdvisoryFileLock)
    (fd : Z) (mode : FileLockMode) (hist : list native_call)
    (Hc : blocking_contract os) :
  (snd (snd (lock self os hist)) <> Err AlreadyLocked /\
   (snd (snd (lock self os hist)) = Ok tt \/
    exists e, snd (snd (lock self os hist)) = Err (Io e))) /\
  (snd (Unix.lock_file fd mode false os hist) <> Err AlreadyLocked /\
   (snd (Unix.lock_file fd mode false os hist) = Ok tt \/
    exists e, snd (Unix.lock_file fd mode false os hist) = Err (Io e))).
Proof.
  destruct Hc as [Hu Hw]; split.
  - unfold lock, bind, ret, lock_impl.
    pose proof (Windows_blocking_not_already_locked os (raw (file self))
                  (file_lock_mode self) hist Hw) as H.
    destruct (Windows.lock_file (raw (file self)) (file_lock_mode self) false
                os hist) as [t r]; exact H.
  - exact (Unix_blocking_not_already_locked os fd mode hist Hu).
Qed.

(** Witness for C3: an OS whose every call fails with [EIO] (5) satisfies
    the contract, and a blocking lock on it returns [IOError 5] on both
    backends. *)
Lemma C3_lock_never_already_locked_witness :
  blocking_contract (os_fail 5) /\
  snd (run (lock h4) (os_fail 5)) = Err (Io 5) /\
  run (Unix.lock_file 4 Exclusive false) (os_fail 5) = Err (Io 5) /\
  snd (snd (lock h4 (os_fail 5) [])) <> Err AlreadyLocked.
Proof.
  assert (Hc : blocking_contract (os_fail 5))
    by (split; intros ? ? ? ?; cbn; discriminate).
  split; [exact Hc |].
  split; [reflexivity |].
  split; [reflexivity |].
  exact (proj1 (proj1 (C3_lock_never_already_locked (os_fail 5) h4 4
                         Exclusive [] Hc))).
Defined.

(** C4: for every handle, the Windows [unlock] returns [Ok] exactly when
    [UnlockFileEx] succeeds or fails with [ERROR_NOT_LOCKED], returns
    [IOError code] exactly for every other failure code, and never returns
    [AlreadyLocked]. *)
Theorem C4_windows_unlock_mapping (os : Os) (hd : Z) :
  let '(r, e) := os_UnlockFileEx os [] hd 0 1 0 Windows.create_overlapped in
  (run (Windows.unlock hd) os = Ok tt <-> r = TRUE \/ e = ERROR_NOT_LOCKED) /\
  (run (Windows.unlock hd) os = Err (Io e)
     <-> r <> TRUE /\ e <> ERROR_NOT_LOCKED) /\
  run (Windows.unlock hd) os <> Err AlreadyLocked.
Proof.
  unfold run, Windows.unlock; rewrite Windows_unlock_file_eq; cbn.
  destruct (os_UnlockFileEx _ _ _ _ _ _ _) as [r e]; decide_codes.
Qed.

(** C5: for every descriptor, the POSIX [unlock] issues [flock(fd, LOCK_UN)]
    and returns [Ok] exactly when it returns 0, [IOError errno] for every
    failure whatever [errno] is, and never [AlreadyLocked]. *)
Theorem C5_posix_unlock_mapping (os : Os) (fd : Z) :
  trace (Unix.unlock fd) os = [NFlock fd LOCK_UN] /\
  let '(r, e) := os_flock os [] fd LOCK_UN in
  (run (Unix.unlock fd) os = Ok tt <-> r = 0) /\
  (run (Unix.unlock fd) os = Err (Io e) <-> r <> 0) /\
  run (Unix.unlock fd) os <> Err AlreadyLocked.
Proof.
  unfold run, trace, Unix.unlock; rewrite Unix_unlock_file_eq; cbn.
  split; [reflexivity |].
  destruct (os_flock _ _ _ _) as [r e]; decide_codes.
Qed.

(** C7: for every handle, mode and blocking flag, the Windows [lock_file]
    with [LockFileEx] answering [(result, GetLastError())] yields [Ok]
    exactly when [result = TRUE], [AlreadyLocked] exactly when it fails
    with [ERROR_LOCKED], and [IOError code] exactly for every other code. *)
Theorem C7_windows_lock_mapping (os : Os) (hd : Z) (mode : FileLockMode)
    (immediate : bool) :
  let '(r, e) := os_LockFileEx os [] hd (Windows.lock_flags mode immediate)
                   0 1 0 Windows.create_overlapped in
  (run (Windows.lock_file hd mode immediate) os = Ok tt <-> r = TRUE) /\
  (run (Windows.lock_file hd mode immediate) os = Err AlreadyLocked
     <-> r <> TRUE /\ e = ERROR_LOCKED) /\
  (run (Windows.lock_file hd mode immediate) os = Err (Io e)
     <-> r <> TRUE /\ e <> ERROR_LOCKED).
Proof.
  unfold run; rewrite Windows_lock_file_eq; cbn.
  destruct (os_LockFileEx _ _ _ _ _ _ _ _) as [r e]; decide_codes.
Qed.

(** C6: for every path, [new] issues one [open] with read, write and
    create all set for [Exclusive], and with read only (write and create
    unset) for [Shared]. *)
Theorem C6_new_open_options (os : Os) (path : string) :
  trace (new path Exclusive) os
    = [NOpen path {| oo_read := true; oo_write := true; oo_create := true |}] /\
  trace (new path Shared) os
    = [NOpen path {| oo_read := true; oo_write := false; oo_create := false |}].
Proof.
  unfold trace, new, bind, open, ret; cbn.
  split; destruct (os_open _ _ _ _); reflexivity.
Qed.

(** The native call issued by [unlock] on each platform. *)
Lemma unlock_trace self os hist :
  fst (unlock self os hist) = [unlock_call self].
Proof.
  unfold unlock, bind, ret, unlock_impl.
  rewrite Windows_unlock_file_eq; reflexivity.
Qed.

(** C8: for every handle and history, [drop] (Windows build) issues the
    native unlock call, then one [log::error!] carrying the error exactly
    when that unlock failed, and returns [()]: the error reaches no
    caller. *)
Theorem C8_drop_logs_unlock_error (os : Os) (self : AdvisoryFileLock)
    (hist : list native_call) :
  drop self os hist
    = (unlock_call self ::
         match snd (snd (unlock self os hist)) with
         | Err err => [NLogError err]
         | Ok _ => []
         end, tt).
Proof.
  pose proof (unlock_trace self os hist) as Ht.
  unfold drop, bind at 1.
  destruct (unlock self os hist) as [t [h' r]]; cbn in Ht |- *; subst t.
  destruct r; reflexivity.
Qed.

(** Each operation hands the handle back unchanged. *)
Lemma step_self o self os hist :
  fst (snd (step o self os hist)) = self.
Proof.
  destruct o; cbn [step]; unfold lock, try_lock, unlock, bind, ret;
    [ destruct (lock_impl self os hist)
    | destruct (try_lock_impl self os hist)
    | destruct (unlock_impl self os hist) ]; reflexivity.
Qed.

Lemma run_ops_self ops : forall self os hist,
  fst (snd (run_ops self ops os hist)) = self.
Proof.
  induction ops as [| o rest IH]; intros self os hist; [reflexivity |].
  cbn [run_ops]; unfold bind at 1.
  pose proof (step_self o self os hist) as Hs.
  destruct (step o self os hist) as [t1 [s1 r1]]; cbn in Hs |- *; subst s1.
  unfold bind, ret.
  specialize (IH self os (hist ++ t1)).
  destruct (run_ops self rest os (hist ++ t1)) as [t2 [s2 r2]];
    cbn in IH |- *; congruence.
Qed.

(** C9: for every handle, history and sequence of [lock], [try_lock] and
    [unlock] calls (Windows build), the handle's mode is unchanged, and so
    are [is_shared] and [is_exclusive]. *)
Theorem C9_mode_immutable (os : Os) (ops : list op)
    (self : AdvisoryFileLock) (hist : list native_call) :
  let self' := fst (snd (run_ops self ops os hist)) in
  file_lock_mode self' = file_lock_mode self /\
  is_shared self' = is_shared self /\
  is_exclusive self' = is_exclusive self.
Proof.
  cbv zeta; rewrite run_ops_self; repeat split.
Qed.

(** C10: for every path and mode, [new] issues no lock call; it returns a
    handle of that mode over the descriptor [open] returned, or fails with
    [IOError] carrying the error [open] returned, never [AlreadyLocked]. *)
Theorem C10_new_only_io_errors (os : Os) (path : string)
    (mode : FileLockMode) :
  let is_ex := FileLockMode_eqb mode Exclusive in
  let o := {| oo_read := true; oo_write := is_ex; oo_create := is_ex |} in
  existsb is_lock_call (trace (new path mode) os) = false /\
  match run (new path mode) os with
  | Ok self => file_lock_mode self = mode /\ os_open os [] path o = Ok (raw (file self))
  | Err e => e <> AlreadyLocked /\
             exists ioe, e = Io ioe /\ os_open os [] path o = Err ioe
  end.
Proof.
  cbv zeta; unfold run, trace, new, bind, open, ret; cbn -[FileLockMode_eqb].
  destruct (os_open os [] path _) as [fd | ioe] eqn:E; cbn.
  - split; [reflexivity | split; [reflexivity | first [exact E | reflexivity]]].
  - split; [reflexivity | split; [discriminate | eauto]].
Qed.

(** ** Further properties of the code *)

(** X1: on the Windows build, [lock] and [try_lock] on a handle each
    issue exactly one native lock call, on the handle's descriptor with its
    mode; they differ only in the blocking flag. *)
Theorem lock_try_lock_native_call (os : Os) (self : AdvisoryFileLock)
    (hist : list native_call) :
  fst (lock self os hist) = [lock_call self false] /\
  fst (try_lock self os hist) = [lock_call self true].
Proof.
  unfold lock, try_lock, lock_impl, try_lock_impl, bind, ret.
  rewrite !Windows_lock_file_eq; split; reflexivity.
Qed.

(** X2: the POSIX [flock] operation for a lock request has the [LOCK_SH]
    bit exactly for [Shared], the [LOCK_EX] bit exactly for [Exclusive],
    the [LOCK_NB] bit exactly for the immediate variant, and never the
    [LOCK_UN] bit. *)
Theorem Unix_lock_flags_bits (mode : FileLockMode) (immediate : bool) :
  let f := Unix.lock_flags mode immediate in
  Z.testbit f 0 = FileLockMode_eqb mode Shared /\
  Z.testbit f 1 = FileLockMode_eqb mode Exclusive /\
  Z.testbit f 2 = immediate /\
  Z.testbit f 3 = false /\
  0 < f < 8.
Proof. destruct mode, immediate; vm_compute; repeat split; congruence. Qed.

(** X3: the [LockFileEx] flags have [LOCKFILE_EXCLUSIVE_LOCK] exactly for
    [Exclusive] and [LOCKFILE_FAIL_IMMEDIATELY] exactly for the immediate
    variant, and no other bit. *)
Theorem Windows_lock_flags_bits (mode : FileLockMode) (immediate : bool) :
  let f := Windows.lock_flags mode immediate in
  Z.testbit f 0 = immediate /\
  Z.testbit f 1 = FileLockMode_eqb mode Exclusive /\
  0 <= f < 4.
Proof. destruct mode, immediate; vm_compute; repeat split; congruence. Qed.

(** X4: under [flock] semantics, for two distinct descriptors on one file
    and every pair of modes, the POSIX backend's blocking [lock_file] on
    the first succeeds, and the non-blocking [lock_file] on the second then
    returns [AlreadyLocked] exactly when either mode is [Exclusive], and
    [Ok] when both are [Shared]. *)
Theorem flock_try_lock_conflict (fd1 fd2 : Z) (m1 m2 : FileLockMode)
    (Hne : fd1 <> fd2) :
  run (lock_then_try_lock fd1 fd2 m1 m2) os_flock_file
  = [Ok tt;
     if FileLockMode_eqb m1 Exclusive || FileLockMode_eqb m2 Exclusive
     then Err AlreadyLocked else Ok tt].
Proof.
  assert (E : (fd1 =? fd2) = false) by (apply Z.eqb_neq; exact Hne).
  unfold run, lock_then_try_lock, Unix.lock_file, Unix.unlock_file, bind,
    flock, ret.
  destruct m1, m2; cbn; rewrite ?E; reflexivity.
Qed.

Lemma flock_try_lock_conflict_witness :
  (3 <> 4) /\
  run (lock_then_try_lock 3 4 Exclusive Shared) os_flock_file
    = [Ok tt; Err AlreadyLocked].
Proof.
  split; [discriminate |].
  exact (flock_try_lock_conflict 3 4 Exclusive Shared ltac:(discriminate)).
Defined.

(** X5: under [flock] semantics, once the first descriptor has been
    unlocked with [unlock_file], the second descriptor's non-blocking
    [lock_file] succeeds, whatever the two modes. *)
Theorem flock_unlock_releases (fd1 fd2 : Z) (m1 m2 : FileLockMode) :
  run (lock_unlock_then_try_lock fd1 fd2 m1 m2) os_flock_file
  = [Ok tt; Ok tt; Ok tt].
Proof.
  unfold run, lock_unlock_then_try_lock, Unix.lock_file, Unix.unlock_file,
    bind, flock, ret.
  destruct m1, m2; cbn; rewrite ?Z.eqb_refl; reflexivity.
Qed.

(** The native call issued by one operation. *)
Lemma step_trace o self os hist :
  fst (step o self os hist)
  = [match o with
     | OpLock => lock_call self false
     | OpTryLock => lock_call self true
     | OpUnlock => unlock_call self
     end].
Proof.
  destruct o; cbn [step];
    unfold lock, try_lock, unlock, lock_impl, try_lock_impl, unlock_impl,
      bind, ret;
    rewrite ?Windows_lock_file_eq, ?Windows_unlock_file_eq; reflexivity.
Qed.

(** X6: on the Windows build, a sequence of operations on a handle issues
    exactly one native call per operation, in order, each on the handle's
    own descriptor, and returns one result per operation: nothing is
    retried or added. *)
Theorem run_ops_one_call_each (ops : list op) :
  forall (self : AdvisoryFileLock) (os : Os) (hist : list native_call),
  fst (run_ops self ops os hist)
    = map (fun o => match o with
                    | OpLock => lock_call self false
                    | OpTryLock => lock_call self true
                    | OpUnlock => unlock_call self
                    end) ops /\
  Forall (fun c => call_fd c = Some (raw (file self)))
         (fst (run_ops self ops os hist)) /\
  List.length (snd (snd (run_ops self ops os hist))) = List.length ops.
Proof.
  induction ops as [| o rest IH]; intros self os hist.
  - repeat split; constructor.
  - cbn [run_ops]; unfold bind, ret.
    pose proof (step_trace o self os hist) as Ht.
    pose proof (step_self o self os hist) as Hs.
    destruct (step o self os hist) as [t1 [s1 r1]]; cbn in Ht, Hs |- *.
    subst t1 s1.
    destruct (IH self os (hist ++ [match o with
                                   | OpLock => lock_call self false
                                   | OpTryLock => lock_call self true
                                   | OpUnlock => unlock_call self
                                   end])) as [Hm [Hf Hl]].
    destruct (run_ops self rest os _) as [t2 [s2 r2]]; cbn in Hm, Hf, Hl |- *.
    rewrite app_nil_r; subst t2.
    repeat split.
    + constructor; [destruct o; reflexivity | exact Hf].
    + rewrite Hl; reflexivity.
Qed.

(** X7: the [Display] text tells the two variants apart: the
    [AlreadyLocked] text never equals an [Io] text, and two [Io] texts are
    equal exactly when the wrapped errors display equally. *)
Theorem fmt_distinguishes (io_display : io_error -> string) (e1 e2 : io_error) :
  fmt io_display AlreadyLocked <> fmt io_display (Io e1) /\
  (fmt io_display (Io e1) = fmt io_display (Io e2)
     <-> io_display e1 = io_display e2).
Proof.
  cbn; split; [discriminate |].
  split; intro H; [| rewrite H; reflexivity].
  repeat (injection H as H); exact H.
Qed.

(** X8: every handle is either shared or exclusive, never both. *)
Theorem is_shared_not_exclusive (self : AdvisoryFileLock) :
  is_shared self = negb (is_exclusive self).
Proof. unfold is_shared, is_exclusive; destruct (file_lock_mode self); reflexivity. Qed.

(** X9: on Windows, dropping a handle whose unlock fails with
    [ERROR_NOT_LOCKED] (it holds no lock) issues the unlock call and logs
    nothing. *)
Theorem windows_drop_unlocked_silent (os : Os) (self : AdvisoryFileLock)
    (hist : list native_call) (r : Z)
    (Hnl : os_UnlockFileEx os hist (raw (file self)) 0 1 0
             Windows.create_overlapped = (r, ERROR_NOT_LOCKED)) :
  drop self os hist = ([unlock_call self], tt).
Proof.
  unfold drop, unlock, unlock_impl, bind, ret.
  rewrite Windows_unlock_file_eq, Hnl; cbn.
  destruct (r =? TRUE); reflexivity.
Qed.

Lemma windows_drop_unlocked_silent_witness :
  os_UnlockFileEx (os_fail ERROR_NOT_LOCKED) [] 4 0 1 0
    Windows.create_overlapped = (0, ERROR_NOT_LOCKED) /\
  drop h4 (os_fail ERROR_NOT_LOCKED) [] = ([unlock_call h4], tt).
Proof.
  split; [reflexivity |].
  apply (windows_drop_unlocked_silent (os_fail ERROR_NOT_LOCKED) h4 [] 0).
  reflexivity.
Defined.
